(** * gen-docs: the Markdown renderer of [scripts/gen-docs.py]

    A shallow embedding of the script and the properties of its
    traversal.  The script reads [default-config.json], takes the
    object under ["docs"], deletes its ["description"] entry and prints
    the rest as Markdown with [thing(x, 4)].

    Modelling choices.
    - A Python [str] is its sequence of Unicode code points.
    - A parsed JSON document is a [json] value; a [dict] is the list of
      its items in insertion order (keys of a real [dict] are distinct).
    - The module-level variable [last] and the standard output are the
      two fields of a [world] that every statement passes on.  One
      element of [stdout] is the text of one [print] call.
    - What [str.title] does outside ASCII, and what [str()] gives for a
      value that is not a string, belong to the interpreter: they are
      the fields of [Builtins]. *)

From Stdlib Require Import List ZArith NArith Bool String Ascii PrimFloat Lia.
Import ListNotations.
Local Open Scope Z_scope.
Local Open Scope list_scope.

(** ** Strings *)

Definition codepoint := N.
Definition pystr := list codepoint.

(** A literal: the code points of an ASCII text. *)
Definition u (s : string) : pystr :=
  map N_of_ascii (list_ascii_of_string s).

Definition pystr_eqb (a b : pystr) : bool :=
  if list_eq_dec N.eq_dec a b then true else false.

(** ** Parsed JSON values, as [json.loads] returns them *)

#[local] Unset Elimination Schemes.
Inductive json : Type :=
| JNone
| JBool (b : bool)
| JInt (n : Z)
| JFloat (f : float)
| JStr (s : pystr)
| JList (l : list json)
| JDict (d : list (pystr * json)).
#[local] Set Elimination Schemes.

Definition items := list (pystr * json).

Definition keys (x : items) : list pystr := map fst x.

(** The values the global [last] takes besides [None]: the type objects
    [dict], [str] and [list]. *)
Inductive pytype := TDict | TStr | TList.

Definition pytype_eqb (a b : pytype) : bool :=
  match a, b with
  | TDict, TDict | TStr, TStr | TList, TList => true
  | _, _ => false
  end.

Record world := mkWorld { last : option pytype; stdout : list pystr }.

(** [last = None] at module load, nothing printed yet. *)
Definition fresh : world := mkWorld None [].

Definition print (line : pystr) (w : world) : world :=
  mkWorld (last w) (stdout w ++ [line]).

Definition set_last (t : pytype) (w : world) : world :=
  mkWorld (Some t) (stdout w).

(** ** Interpreter builtins *)

Class Builtins := {
  (** [_PyUnicode_IsCased] above U+007F *)
  uc_is_cased : codepoint -> bool;
  (** [_PyUnicode_ToTitleFull] above U+007F *)
  uc_to_title : codepoint -> pystr;
  (** [lower_ucs4] above U+007F: the whole string and the index, since
      the lower case of a capital sigma depends on its neighbours *)
  uc_to_lower : pystr -> nat -> codepoint -> pystr;
  (** [str(v)] for a value [v] that is not a [str] *)
  str_of_other : json -> pystr
}.

Section Program.

Context {B : Builtins}.

Definition is_ascii_upper (c : codepoint) : bool := (65 <=? c)%N && (c <=? 90)%N.
Definition is_ascii_lower (c : codepoint) : bool := (97 <=? c)%N && (c <=? 122)%N.

Definition is_cased (c : codepoint) : bool :=
  if (c <? 128)%N then is_ascii_upper c || is_ascii_lower c else uc_is_cased c.

Definition to_title (c : codepoint) : pystr :=
  if (c <? 128)%N then [if is_ascii_lower c then (c - 32)%N else c]
  else uc_to_title c.

Definition to_lower (s : pystr) (idx : nat) (c : codepoint) : pystr :=
  if (c <? 128)%N then [if is_ascii_upper c then (c + 32)%N else c]
  else uc_to_lower s idx c.

(** [str.title]: a character that follows a cased character is
    lowered, any other is title-cased. *)
Fixpoint do_title (s rest : pystr) (idx : nat) (previous_is_cased : bool) : pystr :=
  match rest with
  | [] => []
  | c :: rest' =>
      (if previous_is_cased then to_lower s idx c else to_title c)
        ++ do_title s rest' (S idx) (is_cased c)
  end.

Definition title (s : pystr) : pystr := do_title s s 0%nat false.

(** [k.replace("_", " ")] *)
Definition replace_underscores (k : pystr) : pystr :=
  map (fun c => if (c =? 95)%N then 32%N else c) k.

(** ["#" * i]: empty when [i] is not positive. *)
Definition hashes (i : Z) : pystr := repeat 35%N (Z.to_nat i).

(** The text of [print("#"*i, k.replace("_", " ").title())]. *)
Definition heading (i : Z) (k : pystr) : pystr :=
  hashes i ++ [32%N] ++ title (replace_underscores k).

(** The text of [print(f"- `{k}`: {v}")]. *)
Definition bullet (k v : pystr) : pystr :=
  u "- `" ++ k ++ u "`: " ++ v.

(** The text of [print(line)]. *)
Definition py_str (v : json) : pystr :=
  match v with
  | JStr s => s
  | _ => str_of_other v
  end.

(** [last is not None and last != dict] *)
Definition not_none_not_dict (l : option pytype) : bool :=
  match l with
  | None => false
  | Some t => negb (pytype_eqb t TDict)
  end.

(** One turn of the loop of [thing], for the item [(k, v)]. *)
Fixpoint thing_item (k : pystr) (v : json) (i : Z) (w : world) {struct v} : world :=
  match v with
  | JDict x =>
      let w := if not_none_not_dict (last w) then print [] w else w in
      let w := set_last TDict w in
      let w := print (heading i k) w in
      let w := print [] w in
      fold_left (fun w kv => thing_item (fst kv) (snd kv) (i + 1) w) x w
  | JStr s =>
      let w := print (bullet k s) w in
      set_last TStr w
  | JList l =>
      let w := fold_left (fun w line => print (py_str line) w) l w in
      set_last TList w
  | _ => w
  end.

(** [thing(x, i)] *)
Definition thing (x : items) (i : Z) (w : world) : world :=
  fold_left (fun w kv => thing_item (fst kv) (snd kv) i w) x w.

(** ** The module body *)

Inductive exn :=
| KeyError (k : pystr)
| TypeError.

Fixpoint dict_get (k : pystr) (x : items) : option json :=
  match x with
  | [] => None
  | (k', v) :: rest => if pystr_eqb k' k then Some v else dict_get k rest
  end.

(** The dict without its entry for [k], [None] when it has none. *)
Fixpoint dict_del (k : pystr) (x : items) : option items :=
  match x with
  | [] => None
  | (k', v) :: rest =>
      if pystr_eqb k' k then Some rest
      else match dict_del k rest with
           | Some rest' => Some ((k', v) :: rest')
           | None => None
           end
  end.

(** [v[k]] for a string [k] *)
Definition getitem (v : json) (k : pystr) : exn + json :=
  match v with
  | JDict x => match dict_get k x with
               | Some r => inr r
               | None => inl (KeyError k)
               end
  | _ => inl TypeError
  end.

(** [del v[k]] for a string [k]; only a dict survives it. *)
Definition delitem (v : json) (k : pystr) : exn + items :=
  match v with
  | JDict x => match dict_del k x with
               | Some x' => inr x'
               | None => inl (KeyError k)
               end
  | _ => inl TypeError
  end.

(** The three statements under [with open(...)], on the value [doc]
    that [json.loads(f.read())] returned: the world they leave and the
    exception that ended them, if any. *)
Definition main (doc : json) : world * option exn :=
  match getitem doc (u "docs") with
  | inl e => (fresh, Some e)
  | inr x =>
      match delitem x (u "description") with
      | inl e => (fresh, Some e)
      | inr x' => (thing x' 4 fresh, None)
      end
  end.

(** ** What a call prints, and the branches it takes *)

(** The lines one call [thing(x, i)] prints when [last] is [l] at its
    start. *)
Definition emitted (x : items) (i : Z) (l : option pytype) : list pystr :=
  stdout (thing x i (mkWorld l [])).

(** The branch of the loop body a value takes, by the [isinstance]
    tests; [None] when all three fail. *)
Definition variant_of (v : json) : option pytype :=
  match v with
  | JDict _ => Some TDict
  | JStr _ => Some TStr
  | JList _ => Some TList
  | _ => None
  end.

(** The values assigned to [last] while the item is rendered, in the
    order of the assignments: the branches taken, in pre-order. *)
Fixpoint branches_item (v : json) : list pytype :=
  match v with
  | JDict x => TDict :: flat_map (fun kv => branches_item (snd kv)) x
  | JStr _ => [TStr]
  | JList _ => [TList]
  | _ => []
  end.

Definition branches (x : items) : list pytype :=
  flat_map (fun kv => branches_item (snd kv)) x.

(** The last value assigned, [l] when there was no assignment. *)
Definition last_assigned (bs : list pytype) (l : option pytype) : option pytype :=
  List.last (map Some bs) l.

(** The first branch a call takes is the [dict] one. *)
Definition first_is_section (x : items) : bool :=
  match branches x with
  | TDict :: _ => true
  | _ => false
  end.

(** The world with [o] printed before everything else. *)
Definition printed_before (o : list pystr) (w : world) : world :=
  mkWorld (last w) (o ++ stdout w).

End Program.

(** ** The rules as the specification words them *)

(** The blank-line rule of the specification: a previous sibling exists
    at this level and it is a Section. *)
Definition spec_blank_before (pre : items) : bool :=
  match rev pre with
  | (_, JDict _) :: _ => true
  | _ => false
  end.

(** ** Sample documents *)

(** The interpreter on ASCII documents whose lists hold strings only:
    code points above U+007F are uncased and [str()] of [None], [True]
    and [False] is their name.  The samples below ask nothing else of
    it. *)
Definition ascii_builtins : Builtins :=
  {| uc_is_cased := fun _ => false;
     uc_to_title := fun c => [c];
     uc_to_lower := fun _ _ c => [c];
     str_of_other := fun v =>
       match v with
       | JNone => u "None"
       | JBool true => u "True"
       | JBool false => u "False"
       | _ => []
       end |}.

(** [{"docs": {"description": "x", "settings": {"timeout": "30s"}}}] *)
Definition settings_doc : json :=
  JDict [(u "docs",
          JDict [(u "description", JStr (u "x"));
                 (u "settings", JDict [(u "timeout", JStr (u "30s"))])])].

(** [{"docs": {"description": "x", "retries": 5}}] *)
Definition number_doc : json :=
  JDict [(u "docs",
          JDict [(u "description", JStr (u "x")); (u "retries", JInt 5)])].

(** [{"docs": {"settings": {"timeout": "30s"}}}] *)
Definition no_description_doc : json :=
  JDict [(u "docs", JDict [(u "settings", JDict [(u "timeout", JStr (u "30s"))])])].

(** [{"intro": "i", "description": ["d"], "settings": {"timeout": "30s"}}],
    the object under [docs], and the document that holds it *)
Definition described_docs : items :=
  [(u "intro", JStr (u "i"));
   (u "description", JList [JStr (u "d")]);
   (u "settings", JDict [(u "timeout", JStr (u "30s"))])].

Definition described_doc : json := JDict [(u "docs", JDict described_docs)].

(** [{"a": "x"}], [{"a": {}}], [{"a": {"k": "v"}}] and [{"b": {}}] *)
Definition a_description : items := [(u "a", JStr (u "x"))].
Definition a_empty_section : items := [(u "a", JDict [])].
Definition a_section_with_leaf : items := [(u "a", JDict [(u "k", JStr (u "v"))])].
Definition b_section : items := [(u "b", JDict [])].

(** ** Further readings of the world and of the tree *)

Definition is_dict (v : json) : bool :=
  match v with
  | JDict _ => true
  | _ => false
  end.

Definition is_ascii (s : pystr) : bool := forallb (fun c => (c <? 128)%N) s.

Definition ends_with_blank (o : list pystr) : bool :=
  match rev o with
  | [] :: _ => true
  | _ => false
  end.

(** [last] and the output agree: nothing was printed while [last] is
    [None], and the line printed last is blank while [last] is [dict]. *)
Definition blank_tracked (w : world) : bool :=
  match last w with
  | None => match stdout w with [] => true | _ => false end
  | Some TDict => ends_with_blank (stdout w)
  | Some _ => true
  end.

(** The loop body prints no line for the value: no branch is taken, or
    the [list] one for an empty list. *)
Definition prints_nothing (v : json) : bool :=
  match v with
  | JDict _ | JStr _ | JList (_ :: _) => false
  | _ => true
  end.

(** The keys of the mappings met [n] calls below the call on the item. *)
Fixpoint sections_item (n : nat) (k : pystr) (v : json) {struct v} : list pystr :=
  match v with
  | JDict x =>
      match n with
      | O => [k]
      | S n' => flat_map (fun kv => sections_item n' (fst kv) (snd kv)) x
      end
  | _ => []
  end.

Definition sections_at (n : nat) (x : items) : list pystr :=
  flat_map (fun kv => sections_item n (fst kv) (snd kv)) x.

(** The string-valued entries of the tree, at any depth. *)
Fixpoint descriptions_item (k : pystr) (v : json) {struct v} : list (pystr * pystr) :=
  match v with
  | JStr s => [(k, s)]
  | JDict x => flat_map (fun kv => descriptions_item (fst kv) (snd kv)) x
  | _ => []
  end.

Definition descriptions (x : items) : list (pystr * pystr) :=
  flat_map (fun kv => descriptions_item (fst kv) (snd kv)) x.

(** The elements of the list-valued entries of the tree, at any depth. *)
Fixpoint verbatim_item (v : json) : list json :=
  match v with
  | JList l => l
  | JDict x => flat_map (fun kv => verbatim_item (snd kv)) x
  | _ => []
  end.

Definition verbatim_elements (x : items) : list json :=
  flat_map (fun kv => verbatim_item (snd kv)) x.

(** [["text"]], [{"docs": "text"}] and [{"settings": {}}]: a document
    that is a list, one whose [docs] is a string, one without [docs] *)
Definition list_doc : json := JList [JStr (u "text")].
Definition text_docs_doc : json := JDict [(u "docs", JStr (u "text"))].
Definition no_docs_doc : json := JDict [(u "settings", JDict [])].

(** [{"empty": [], "b": {}}] and
    [{"a": {"b": {"c": {}}, "k": "v", "lines": ["x", 1]}}] *)
Definition empty_list_then_section : items :=
  [(u "empty", JList []); (u "b", JDict [])].
Definition three_levels : items :=
  [(u "a", JDict [(u "b", JDict [(u "c", JDict [])]);
                  (u "k", JStr (u "v"));
                  (u "lines", JList [JStr (u "x"); JInt 1])])].

(** * Properties *)

(** Induction over a value and the values it holds. *)
Lemma json_nested_ind (P : json -> Prop) :
  P JNone ->
  (forall b, P (JBool b)) ->
  (forall n, P (JInt n)) ->
  (forall f, P (JFloat f)) ->
  (forall s, P (JStr s)) ->
  (forall l, Forall P l -> P (JList l)) ->
  (forall d, Forall (fun kv => P (snd kv)) d -> P (JDict d)) ->
  forall v, P v.
Proof.
  intros HN HB HI HF HS HL HD.
  fix IH 1.
  intros [ | b | n | f | s | l | d].
  - exact HN.
  - apply HB.
  - apply HI.
  - apply HF.
  - apply HS.
  - apply HL. induction l as [ | a l IHl]; constructor; [apply IH | exact IHl].
  - apply HD. induction d as [ | [k a] d IHd]; constructor; [apply IH | exact IHd].
Qed.

Lemma pystr_eqb_eq (a b : pystr) : pystr_eqb a b = true <-> a = b.
Proof.
  unfold pystr_eqb. destruct (list_eq_dec N.eq_dec a b); split; congruence.
Qed.

Lemma pystr_eqb_refl (a : pystr) : pystr_eqb a a = true.
Proof. apply pystr_eqb_eq. reflexivity. Qed.

Lemma pystr_eqb_neq (a b : pystr) : a <> b -> pystr_eqb a b = false.
Proof.
  intro H. destruct (pystr_eqb a b) eqn:E; [ | reflexivity].
  apply pystr_eqb_eq in E. contradiction.
Qed.

Lemma last_cons_default {A : Type} (y : A) (b : list A) (d d' : A) :
  List.last (y :: b) d = List.last (y :: b) d'.
Proof.
  revert y. induction b as [ | z b IH]; intro y; [reflexivity | ].
  change (List.last (z :: b) d = List.last (z :: b) d'). apply IH.
Qed.

Lemma last_app_default {A : Type} (a b : list A) (d : A) :
  List.last (a ++ b) d = List.last b (List.last a d).
Proof.
  revert d. induction a as [ | x a IH]; intro d; [reflexivity | ].
  destruct a as [ | y a].
  - destruct b as [ | z b]; [reflexivity | ].
    change (List.last (z :: b) d = List.last (z :: b) x).
    apply last_cons_default.
  - change (List.last ((y :: a) ++ b) d = List.last b (List.last (y :: a) d)).
    apply IH.
Qed.

Lemma last_assigned_app (a b : list pytype) (l : option pytype) :
  last_assigned (a ++ b) l = last_assigned b (last_assigned a l).
Proof. unfold last_assigned. rewrite map_app. apply last_app_default. Qed.

Lemma last_assigned_cons (t : pytype) (bs : list pytype) (l : option pytype) :
  last_assigned (t :: bs) l = last_assigned bs (Some t).
Proof. apply (last_assigned_app [t] bs l). Qed.

Lemma last_assigned_idem (bs : list pytype) (l : option pytype) :
  last_assigned bs (last_assigned bs l) = last_assigned bs l.
Proof.
  destruct bs as [ | t bs]; [reflexivity | ].
  rewrite !last_assigned_cons. reflexivity.
Qed.

Section Properties.

Context {B : Builtins}.

(** *** The loop, turn by turn *)

Lemma thing_nil (i : Z) (w : world) : thing [] i w = w.
Proof. reflexivity. Qed.

Lemma thing_cons (k : pystr) (v : json) (x : items) (i : Z) (w : world) :
  thing ((k, v) :: x) i w = thing x i (thing_item k v i w).
Proof. reflexivity. Qed.

Lemma thing_app (x y : items) (i : Z) (w : world) :
  thing (x ++ y) i w = thing y i (thing x i w).
Proof. apply fold_left_app. Qed.

Lemma thing_item_dict (k : pystr) (x : items) (i : Z) (w : world) :
  thing_item k (JDict x) i w =
  thing x (i + 1)
    (print [] (print (heading i k)
       (set_last TDict (if not_none_not_dict (last w) then print [] w else w)))).
Proof. reflexivity. Qed.

Lemma print_lines (l : list json) (w : world) :
  fold_left (fun w line => print (py_str line) w) l w =
  mkWorld (last w) (stdout w ++ map py_str l).
Proof.
  revert w. induction l as [ | a l IH]; intro w; simpl.
  - rewrite app_nil_r. destruct w; reflexivity.
  - rewrite IH. simpl. rewrite <- app_assoc. reflexivity.
Qed.

Lemma thing_item_list (k : pystr) (l : list json) (i : Z) (w : world) :
  thing_item k (JList l) i w = mkWorld (Some TList) (stdout w ++ map py_str l).
Proof. simpl. rewrite print_lines. reflexivity. Qed.

Lemma thing_item_str (k s : pystr) (i : Z) (w : world) :
  thing_item k (JStr s) i w = mkWorld (Some TStr) (stdout w ++ [bullet k s]).
Proof. reflexivity. Qed.

(** *** What was printed before a call does not change the call *)

Lemma print_printed_before (o : list pystr) (s : pystr) (w : world) :
  print s (printed_before o w) = printed_before o (print s w).
Proof. unfold print, printed_before. simpl. rewrite app_assoc. reflexivity. Qed.

Lemma set_last_printed_before (o : list pystr) (t : pytype) (w : world) :
  set_last t (printed_before o w) = printed_before o (set_last t w).
Proof. reflexivity. Qed.

Lemma thing_item_printed_before (v : json) :
  forall k i o w,
    thing_item k v i (printed_before o w) = printed_before o (thing_item k v i w).
Proof.
  induction v as [ | b | n | f | s | l _ | d IH] using json_nested_ind;
    intros k i o w; try reflexivity.
  - rewrite !thing_item_str. unfold printed_before. simpl.
    rewrite app_assoc. reflexivity.
  - rewrite !thing_item_list. unfold printed_before. simpl.
    rewrite app_assoc. reflexivity.
  - rewrite !thing_item_dict.
    assert (E : print [] (print (heading i k) (set_last TDict
                  (if not_none_not_dict (last (printed_before o w))
                   then print [] (printed_before o w) else printed_before o w))) =
                printed_before o (print [] (print (heading i k) (set_last TDict
                  (if not_none_not_dict (last w) then print [] w else w))))).
    { simpl (last (printed_before o w)).
      destruct (not_none_not_dict (last w));
        rewrite ?print_printed_before, set_last_printed_before,
                !print_printed_before; reflexivity. }
    rewrite E. clear E.
    generalize (print [] (print (heading i k) (set_last TDict
                  (if not_none_not_dict (last w) then print [] w else w)))) as w'.
    generalize (i + 1) as j.
    induction IH as [ | [k' v'] d Hv _ IHd]; intros j w'; [reflexivity | ].
    rewrite !thing_cons. simpl in Hv. rewrite Hv. apply IHd.
Qed.

Lemma thing_printed_before (x : items) (i : Z) (o : list pystr) (w : world) :
  thing x i (printed_before o w) = printed_before o (thing x i w).
Proof.
  revert w. induction x as [ | [k v] x IH]; intro w; [reflexivity | ].
  rewrite !thing_cons, thing_item_printed_before. apply IH.
Qed.

Lemma thing_frame (x : items) (i : Z) (w : world) :
  thing x i w = printed_before (stdout w) (thing x i (mkWorld (last w) [])).
Proof.
  rewrite <- thing_printed_before. f_equal.
  unfold printed_before. simpl. rewrite app_nil_r. destruct w; reflexivity.
Qed.

(** A call appends its lines to the output; the lines depend on the
    tree, the depth and the value of [last] at its start only. *)
Lemma stdout_thing (x : items) (i : Z) (w : world) :
  stdout (thing x i w) = stdout w ++ emitted x i (last w).
Proof. rewrite thing_frame. reflexivity. Qed.

Lemma last_thing_frame (x : items) (i : Z) (w : world) :
  last (thing x i w) = last (thing x i (mkWorld (last w) [])).
Proof. rewrite thing_frame. reflexivity. Qed.

(** *** The value of [last] after a call *)

Lemma last_thing_item (v : json) :
  forall k i w,
    last (thing_item k v i w) = last_assigned (branches_item v) (last w).
Proof.
  induction v as [ | b | n | f | s | l _ | d IH] using json_nested_ind;
    intros k i w; try reflexivity.
  rewrite thing_item_dict.
    change (branches_item (JDict d)) with (TDict :: branches d).
    rewrite last_assigned_cons.
    assert (E : last (print [] (print (heading i k) (set_last TDict
                  (if not_none_not_dict (last w) then print [] w else w)))) = Some TDict)
      by reflexivity.
    rewrite <- E.
    generalize (print [] (print (heading i k) (set_last TDict
                  (if not_none_not_dict (last w) then print [] w else w)))) as w'.
    clear E. generalize (i + 1) as j.
    induction IH as [ | [k' v'] d Hv _ IHd]; intros j w'; [reflexivity | ].
    rewrite thing_cons, IHd. simpl in Hv. rewrite Hv.
    change (branches ((k', v') :: d)) with (branches_item v' ++ branches d).
    rewrite last_assigned_app. reflexivity.
Qed.

Lemma last_thing (x : items) (i : Z) (w : world) :
  last (thing x i w) = last_assigned (branches x) (last w).
Proof.
  revert w. induction x as [ | [k v] x IH]; intro w; [reflexivity | ].
  rewrite thing_cons, IH, last_thing_item.
  change (branches ((k, v) :: x)) with (branches_item v ++ branches x).
  rewrite last_assigned_app. reflexivity.
Qed.

(** *** The lines of one item *)

Lemma stdout_thing_split (pre : items) (k : pystr) (v : json) (post : items)
      (i : Z) (w : world) :
  stdout (thing (pre ++ (k, v) :: post) i w) =
  stdout (thing_item k v i (thing pre i w))
    ++ emitted post i (last (thing_item k v i (thing pre i w))).
Proof. rewrite thing_app, thing_cons, stdout_thing. reflexivity. Qed.

Lemma stdout_thing_item_dict (k : pystr) (x : items) (i : Z) (w : world) :
  stdout (thing_item k (JDict x) i w) =
  stdout w ++ (if not_none_not_dict (last w) then [[]] else [])
    ++ [heading i k; []] ++ emitted x (i + 1) (Some TDict).
Proof.
  rewrite thing_item_dict, stdout_thing. simpl.
  destruct (not_none_not_dict (last w)); simpl; rewrite <- !app_assoc; reflexivity.
Qed.

Lemma last_thing_item_dict (k : pystr) (x : items) (i : Z) (w : world) :
  last (thing_item k (JDict x) i w) = last_assigned (branches x) (Some TDict).
Proof.
  rewrite last_thing_item.
  change (branches_item (JDict x)) with (TDict :: branches x).
  apply last_assigned_cons.
Qed.

(** The lines of a Section child, in their place in the output. *)
Lemma stdout_thing_section (pre : items) (k : pystr) (v : items) (post : items)
      (i : Z) (w : world) :
  stdout (thing (pre ++ (k, JDict v) :: post) i w) =
  stdout (thing pre i w)
    ++ (if not_none_not_dict (last (thing pre i w)) then [[]] else [])
    ++ [heading i k; []]
    ++ emitted v (i + 1) (Some TDict)
    ++ emitted post i (last_assigned (branches v) (Some TDict)).
Proof.
  rewrite stdout_thing_split, stdout_thing_item_dict, last_thing_item_dict.
  rewrite <- !app_assoc. reflexivity.
Qed.

Lemma py_str_strings (ls : list pystr) : map py_str (map JStr ls) = ls.
Proof.
  induction ls as [ | s ls IH]; [reflexivity | ].
  simpl. rewrite IH. reflexivity.
Qed.

(** A value outside the three branches leaves the world as it is. *)
Lemma thing_skips (pre : items) (k : pystr) (v : json) (post : items)
      (i : Z) (w : world) :
  variant_of v = None ->
  thing (pre ++ (k, v) :: post) i w = thing (pre ++ post) i w.
Proof.
  intro H. rewrite !thing_app, thing_cons.
  destruct v; try discriminate H; reflexivity.
Qed.

(** *** How the value of [last] at the start shows in the output *)

Lemma emitted_cons (k : pystr) (v : json) (x : items) (i : Z) (l : option pytype) :
  emitted ((k, v) :: x) i l =
  stdout (thing_item k v i (mkWorld l []))
    ++ emitted x i (last (thing_item k v i (mkWorld l []))).
Proof. unfold emitted at 1. rewrite thing_cons, stdout_thing. reflexivity. Qed.

Lemma emitted_from (x : items) (i : Z) (l : option pytype) :
  emitted x i l =
  (if first_is_section x && not_none_not_dict l then [[]] else [])
    ++ emitted x i None.
Proof.
  induction x as [ | [k v] x IH]; [reflexivity | ].
  destruct v as [ | b | n | f | s | ls | d];
    try (rewrite !emitted_cons; exact IH).
  - reflexivity.
  - rewrite !emitted_cons, !thing_item_list. reflexivity.
  - rewrite !emitted_cons, !stdout_thing_item_dict, !last_thing_item_dict.
    change (first_is_section ((k, JDict d) :: x)) with true.
    simpl. destruct (not_none_not_dict l); reflexivity.
Qed.

(** *** The module body *)

Lemma dict_del_present (k : pystr) (d : json) (pre post : items) :
  ~ In k (keys pre) ->
  dict_del k (pre ++ (k, d) :: post) = Some (pre ++ post).
Proof.
  induction pre as [ | [k' v'] pre IH]; intro H; simpl.
  - rewrite pystr_eqb_refl. reflexivity.
  - rewrite pystr_eqb_neq by (intro E; apply H; left; exact E).
    rewrite IH by (intro E; apply H; right; exact E).
    reflexivity.
Qed.

Lemma dict_del_absent (k : pystr) (x : items) :
  ~ In k (keys x) -> dict_del k x = None.
Proof.
  induction x as [ | [k' v'] x IH]; intro H; simpl; [reflexivity | ].
  rewrite pystr_eqb_neq by (intro E; apply H; left; exact E).
  rewrite IH by (intro E; apply H; right; exact E).
  reflexivity.
Qed.

Lemma dict_get_absent (k : pystr) (x : items) :
  ~ In k (keys x) -> dict_get k x = None.
Proof.
  induction x as [ | [k' v'] x IH]; intro H; simpl; [reflexivity | ].
  rewrite pystr_eqb_neq by (intro E; apply H; left; exact E).
  apply IH. intro E. apply H. right. exact E.
Qed.

(** X2.  Without a ["docs"] entry the lookup fails before anything else:
    the run ends with a [KeyError] for [docs] and prints nothing. *)
Lemma main_without_docs (top : items) :
  ~ In (u "docs") (keys top) ->
  main (JDict top) = (fresh, Some (KeyError (u "docs"))).
Proof.
  intro H. unfold main, getitem. rewrite dict_get_absent by exact H. reflexivity.
Qed.

(** *** The claims *)

(** C1, as amended.  A blank line is printed immediately before the
    heading of a Section child exactly when [last] is set and is not
    [dict] at that point, that is when the branch taken last before it
    was the one of a Description or of a Verbatim block.  So a Section
    whose previous sibling is a Description or a Verbatim block gets the
    blank line; a Section that follows an empty Section, or that is the
    first item of a fresh run, gets none. *)
Theorem pre_heading_blank_rule :
  (forall pre k v post i w,
      stdout (thing (pre ++ (k, JDict v) :: post) i w) =
      stdout (thing pre i w)
        ++ (if not_none_not_dict (last (thing pre i w)) then [[]] else [])
        ++ [heading i k; []]
        ++ emitted v (i + 1) (Some TDict)
        ++ emitted post i (last_assigned (branches v) (Some TDict)))
  /\ (forall pre k' s i w,
         not_none_not_dict (last (thing (pre ++ [(k', JStr s)]) i w)) = true)
  /\ (forall pre k' l i w,
         not_none_not_dict (last (thing (pre ++ [(k', JList l)]) i w)) = true)
  /\ (forall pre k' i w,
         not_none_not_dict (last (thing (pre ++ [(k', JDict [])]) i w)) = false)
  /\ (forall i, not_none_not_dict (last (thing [] i fresh)) = false).
Proof.
  split; [exact stdout_thing_section | ].
  repeat split; intros; rewrite ?thing_app, ?thing_cons, ?thing_nil;
    reflexivity.
Qed.

(** C2, as amended.  The module body renders the root at depth 4, and
    the heading of a Section child is printed with the depth of the call
    that meets it: a Section child of the root gets 4 markers, a Section
    child of that child gets 5.  The sample document prints a heading
    for Settings with 4 markers, a blank line, then the bullet. *)
Theorem root_children_depth :
  (forall d x,
      main (JDict [(u "docs", JDict ((u "description", d) :: x))]) =
      (thing x 4 fresh, None))
  /\ (forall pre k pre' k' v' post' post w,
         let v := pre' ++ (k', JDict v') :: post' in
         stdout (thing (pre ++ (k, JDict v) :: post) 4 w) =
         stdout (thing pre 4 w)
           ++ (if not_none_not_dict (last (thing pre 4 w)) then [[]] else [])
           ++ [u "####" ++ u " " ++ title (replace_underscores k); []]
           ++ (emitted pre' 5 (Some TDict)
                 ++ (if not_none_not_dict (last_assigned (branches pre') (Some TDict))
                     then [[]] else [])
                 ++ [u "#####" ++ u " " ++ title (replace_underscores k'); []]
                 ++ emitted v' 6 (Some TDict)
                 ++ emitted post' 5 (last_assigned (branches v') (Some TDict)))
           ++ emitted post 4 (last_assigned (branches v) (Some TDict)))
  /\ main settings_doc =
     (mkWorld (Some TStr) [u "#### Settings"; []; u "- `timeout`: 30s"], None).
Proof.
  split; [ | split].
  - intros d x. unfold main, getitem, delitem. simpl. reflexivity.
  - intros pre k pre' k' v' post' post w v.
    rewrite stdout_thing_section. do 3 f_equal. f_equal.
    unfold emitted at 1. subst v.
    rewrite stdout_thing_section, last_thing. reflexivity.
  - vm_compute. reflexivity.
Qed.

(** C3, as amended.  A child value that is neither a mapping, a string
    nor a list (null, a boolean, a number) is skipped in silence: no
    line is printed for it, [last] keeps its value, no exception is
    raised, and the tree is rendered as if the entry were absent.  A
    list is printed element by element, each through [str()]. *)
Theorem unsupported_values_are_skipped :
  (forall pre k post i w,
      thing (pre ++ (k, JNone) :: post) i w = thing (pre ++ post) i w)
  /\ (forall pre k b post i w,
         thing (pre ++ (k, JBool b) :: post) i w = thing (pre ++ post) i w)
  /\ (forall pre k n post i w,
         thing (pre ++ (k, JInt n) :: post) i w = thing (pre ++ post) i w)
  /\ (forall pre k f post i w,
         thing (pre ++ (k, JFloat f) :: post) i w = thing (pre ++ post) i w)
  /\ (forall k l i w,
         thing_item k (JList l) i w =
         mkWorld (Some TList) (stdout w ++ map py_str l))
  /\ (forall d x,
         main (JDict [(u "docs", JDict ((u "description", d) :: x))]) =
         (thing x 4 fresh, None)).
Proof.
  repeat split; intros;
    try (apply thing_skips; reflexivity).
  - apply thing_item_list.
Qed.

(** C4, as amended.  [last] is never reset.  The lines a call prints
    depend on the tree, the depth and the value of [last] at its start,
    and two calls started with the same value print the same lines.  A
    second call in the same process starts with the value the first one
    left: it prints the lines of the first, after one more blank line
    exactly when the first branch taken is the one of a Section and the
    last one is the one of a Description or a Verbatim block. *)
Theorem second_run_output :
  (forall x i w, stdout (thing x i w) = stdout w ++ emitted x i (last w))
  /\ (forall x i,
         let w1 := thing x i fresh in
         let w2 := thing x i w1 in
         stdout w2 =
         stdout w1
           ++ (if first_is_section x && not_none_not_dict (last w1)
               then [[]] else [])
           ++ stdout w1
         /\ last w1 = last_assigned (branches x) None
         /\ last w2 = last w1).
Proof.
  split; [exact stdout_thing | ].
  intros x i w1 w2. subst w2. repeat split.
  - rewrite stdout_thing, emitted_from. reflexivity.
  - apply last_thing.
  - subst w1. rewrite !last_thing. apply last_assigned_idem.
Qed.

(** C5, as amended.  [last] is one variable of the process, shared by
    all levels.  The decision taken before the heading of a Section
    sibling follows the branch taken last before it in pre-order, inside
    the subtrees of the earlier siblings too; when the previous sibling
    is a Section the decision is made by what that Section holds, and a
    Description that ends it brings a blank line before the next
    heading of the level above. *)
Theorem blank_decision_follows_last_branch :
  (forall pre i w,
      not_none_not_dict (last (thing pre i w)) =
      not_none_not_dict (last_assigned (branches pre) (last w)))
  /\ (forall pre ka va i w,
         not_none_not_dict (last (thing (pre ++ [(ka, JDict va)]) i w)) =
         not_none_not_dict (last_assigned (branches va) (Some TDict)))
  /\ (forall pre ka va kl s kb vb post i w,
         stdout (thing (pre ++ (ka, JDict (va ++ [(kl, JStr s)])) :: (kb, JDict vb) :: post) i w) =
         stdout (thing (pre ++ [(ka, JDict va)]) i w)
           ++ [bullet kl s; []; heading i kb; []]
           ++ emitted vb (i + 1) (Some TDict)
           ++ emitted post i (last_assigned (branches vb) (Some TDict))).
Proof.
  split; [ | split].
  - intros. rewrite last_thing. reflexivity.
  - intros. rewrite thing_app, thing_cons, thing_nil, last_thing_item_dict.
    reflexivity.
  - intros.
    change (pre ++ (ka, JDict (va ++ [(kl, JStr s)])) :: (kb, JDict vb) :: post)
      with (pre ++ [(ka, JDict (va ++ [(kl, JStr s)]))] ++ (kb, JDict vb) :: post).
    rewrite app_assoc, stdout_thing_section.
    rewrite !thing_app, !thing_cons, !thing_nil, !thing_item_dict, thing_app.
    rewrite thing_cons, thing_nil, thing_item_str. simpl.
    rewrite <- !app_assoc. reflexivity.
Qed.


(** C7.  A Description child with key [k] and value [s] prints one
    line, [- `k`: s], the value as it is; key [timeout] with value
    [max wait in seconds] prints [- `timeout`: max wait in seconds]. *)
Theorem description_line_format :
  (forall pre k s post i w,
      stdout (thing (pre ++ (k, JStr s) :: post) i w) =
      stdout (thing pre i w)
        ++ [u "- `" ++ k ++ u "`: " ++ s]
        ++ emitted post i (Some TStr))
  /\ (forall i l,
         emitted [(u "timeout", JStr (u "max wait in seconds"))] i l =
         [u "- `timeout`: max wait in seconds"]).
Proof.
  split.
  - intros. rewrite stdout_thing_split, thing_item_str. simpl.
    rewrite <- app_assoc. reflexivity.
  - intros. reflexivity.
Qed.

(** C8.  A Verbatim block, a list of [n] strings, prints [n] lines:
    its elements, in the order of the list, each as it is. *)
Theorem verbatim_lines :
  (forall pre k ls post i w,
      stdout (thing (pre ++ (k, JList (map JStr ls)) :: post) i w) =
      stdout (thing pre i w) ++ ls ++ emitted post i (Some TList))
  /\ (forall k i l,
         emitted [(k, JList [JStr (u "line one"); JStr (u "line two")])] i l =
         [u "line one"; u "line two"]).
Proof.
  split.
  - intros. rewrite stdout_thing_split, thing_item_list, py_str_strings. simpl.
    rewrite <- app_assoc. reflexivity.
  - intros. reflexivity.
Qed.

(** C9.  The entry of the top-level key [description] is deleted before
    the rendering: whatever its value and its place, the run is the
    rendering of the other entries at depth 4, and no entry with that
    key is among those the renderer iterates over. *)
Theorem description_key_is_stripped :
  forall top pre d post,
    dict_get (u "docs") top = Some (JDict (pre ++ (u "description", d) :: post)) ->
    ~ In (u "description") (keys pre) ->
    ~ In (u "description") (keys post) ->
    main (JDict top) = (thing (pre ++ post) 4 fresh, None)
    /\ ~ In (u "description") (keys (pre ++ post)).
Proof.
  intros top pre d post Hdocs Hpre Hpost. split.
  - unfold main, getitem. rewrite Hdocs. unfold delitem.
    rewrite dict_del_present by exact Hpre. reflexivity.
  - unfold keys in *. rewrite map_app, in_app_iff. tauto.
Qed.

(** C10.  When the object under [docs] has no [description] key, the
    run ends with a [KeyError] for that key and nothing is printed. *)
Theorem missing_description_is_key_error :
  forall top x,
    dict_get (u "docs") top = Some (JDict x) ->
    ~ In (u "description") (keys x) ->
    main (JDict top) = (fresh, Some (KeyError (u "description")))
    /\ stdout (fst (main (JDict top))) = [].
Proof.
  intros top x Hdocs Hx.
  assert (E : main (JDict top) = (fresh, Some (KeyError (u "description")))).
  { unfold main, getitem. rewrite Hdocs. unfold delitem.
    rewrite dict_del_absent by exact Hx. reflexivity. }
  split; [exact E | rewrite E; reflexivity].
Qed.

End Properties.

(** * Further properties of the script *)

Section Further.

Context {B : Builtins}.


(** X3.  A document that is not an object, or whose [docs] value is not
    an object, ends the run with a [TypeError] before anything is
    printed. *)
Theorem non_object_is_type_error :
  (forall doc, is_dict doc = false -> main doc = (fresh, Some TypeError))
  /\ (forall top v,
         dict_get (u "docs") top = Some v ->
         is_dict v = false ->
         main (JDict top) = (fresh, Some TypeError)).
Proof.
  split.
  - intros doc H. destruct doc; try discriminate H; reflexivity.
  - intros top v Hdocs H. unfold main, getitem. rewrite Hdocs.
    destruct v; try discriminate H; reflexivity.
Qed.

(** X4.  Siblings are rendered in the order of the mapping: the lines
    of [x ++ y] are the lines of [x], then the lines of [y] rendered
    from the value of [last] that [x] left, after what was printed
    before the call, which is kept as it is. *)
Theorem siblings_render_in_order :
  forall x y i w,
    stdout (thing (x ++ y) i w) =
    stdout w ++ emitted x i (last w)
      ++ emitted y i (last_assigned (branches x) (last w))
    /\ last (thing (x ++ y) i w) =
       last_assigned (branches y) (last_assigned (branches x) (last w)).
Proof.
  intros x y i w. split.
  - rewrite thing_app, stdout_thing, stdout_thing, last_thing.
    rewrite <- app_assoc. reflexivity.
  - rewrite thing_app, !last_thing. reflexivity.
Qed.

(** X5.  The value of [last] at the start of a call shows in one line
    at most: [None] and [dict] give the same lines, [str] and [list]
    give the same lines, and these are the lines from [None] after one
    blank line when the first branch taken is the one of a mapping. *)
Theorem start_value_shows_in_one_line :
  forall x i,
    emitted x i (Some TDict) = emitted x i None
    /\ emitted x i (Some TList) = emitted x i (Some TStr)
    /\ emitted x i (Some TStr) =
       (if first_is_section x then [[]] else []) ++ emitted x i None.
Proof.
  intros x i. repeat split.
  - rewrite emitted_from. rewrite andb_false_r. reflexivity.
  - rewrite (emitted_from x i (Some TList)), (emitted_from x i (Some TStr)).
    reflexivity.
  - rewrite emitted_from. rewrite andb_true_r. reflexivity.
Qed.

(** X9.  An empty list prints no line and still sets [last] to [list]:
    the heading of a mapping that follows it is preceded by a blank
    line, also when nothing was printed before. *)
Theorem empty_list_sets_last :
  forall pre k k' v post i w,
    stdout (thing (pre ++ (k, JList []) :: (k', JDict v) :: post) i w) =
    stdout (thing pre i w)
      ++ [[]; heading i k'; []]
      ++ emitted v (i + 1) (Some TDict)
      ++ emitted post i (last_assigned (branches v) (Some TDict)).
Proof.
  intros pre k k' v post i w.
  change (pre ++ (k, JList []) :: (k', JDict v) :: post)
    with (pre ++ [(k, JList [])] ++ (k', JDict v) :: post).
  rewrite app_assoc, stdout_thing_section.
  rewrite thing_app, thing_cons, thing_nil, thing_item_list. simpl.
  rewrite app_nil_r. reflexivity.
Qed.

(** *** Headings and blank lines *)

Lemma ends_with_blank_snoc (o : list pystr) : ends_with_blank (o ++ [[]]) = true.
Proof. unfold ends_with_blank. rewrite rev_app_distr. reflexivity. Qed.

Lemma blank_tracked_thing_item (v : json) :
  forall k i w, blank_tracked w = true -> blank_tracked (thing_item k v i w) = true.
Proof.
  induction v as [ | b | n | f | s | l _ | d IH] using json_nested_ind;
    intros k i w Hw; try exact Hw; try reflexivity.
  rewrite thing_item_dict.
  assert (E : blank_tracked
                (print [] (print (heading i k) (set_last TDict
                   (if not_none_not_dict (last w) then print [] w else w)))) = true).
  { unfold blank_tracked. simpl. apply ends_with_blank_snoc. }
  revert E.
  generalize (print [] (print (heading i k) (set_last TDict
                (if not_none_not_dict (last w) then print [] w else w)))) as w'.
  generalize (i + 1) as j.
  induction IH as [ | [k' v'] d Hv _ IHd]; intros j w' E; [exact E | ].
  rewrite thing_cons. apply IHd. apply Hv. exact E.
Qed.

Lemma blank_tracked_thing (x : items) (i : Z) (w : world) :
  blank_tracked w = true -> blank_tracked (thing x i w) = true.
Proof.
  revert w. induction x as [ | [k v] x IH]; intros w Hw; [exact Hw | ].
  rewrite thing_cons. apply IH. apply blank_tracked_thing_item. exact Hw.
Qed.

(** X6.  In a run where [last] and the output agree at the start, as
    they do in a fresh process, they agree at every heading: the
    heading of a mapping is the first line of the output or comes right
    after a blank line.  The call on the mapping starts in such a world
    again, and so does what follows the item. *)
Theorem heading_follows_blank_line :
  forall pre k v post i w,
    blank_tracked w = true ->
    let w1 := thing pre i w in
    let before :=
      stdout w1 ++ (if not_none_not_dict (last w1) then [[]] else []) in
    stdout (thing (pre ++ (k, JDict v) :: post) i w) =
    before ++ [heading i k; []]
      ++ emitted v (i + 1) (Some TDict)
      ++ emitted post i (last_assigned (branches v) (Some TDict))
    /\ (before = [] \/ ends_with_blank before = true)
    /\ blank_tracked (mkWorld (Some TDict) (before ++ [heading i k; []])) = true
    /\ blank_tracked (thing (pre ++ (k, JDict v) :: post) i w) = true.
Proof.
  intros pre k v post i w Hw w1 before. repeat split.
  - subst before w1. rewrite stdout_thing_section, <- !app_assoc. reflexivity.
  - assert (H1 : blank_tracked w1 = true) by (apply blank_tracked_thing; exact Hw).
    subst before. unfold blank_tracked in H1.
    destruct (last w1) as [[ | | ] | ]; simpl.
    + right. rewrite app_nil_r. exact H1.
    + right. apply ends_with_blank_snoc.
    + right. apply ends_with_blank_snoc.
    + left. destruct (stdout w1); [reflexivity | discriminate H1].
  - unfold blank_tracked. simpl.
    change [heading i k; []] with ([heading i k] ++ [[]]).
    rewrite app_assoc. apply ends_with_blank_snoc.
  - apply blank_tracked_thing. exact Hw.
Qed.

(** *** What reaches the output *)

(** A line that every run of the loop body on an item prints is a line
    of the call on a mapping that holds the item. *)
Lemma in_stdout_thing (x : items) (i : Z) (w : world) (k : pystr) (v : json)
      (line : pystr) :
  In (k, v) x ->
  (forall w', In line (stdout (thing_item k v i w'))) ->
  In line (stdout (thing x i w)).
Proof.
  intros Hin Hline. apply in_split in Hin. destruct Hin as [pre [post E]].
  subst x. rewrite stdout_thing_split. apply in_or_app. left. apply Hline.
Qed.

Lemma section_heading_printed (v : json) :
  forall n k0 i w k,
    In k (sections_item n k0 v) ->
    In (heading (i + Z.of_nat n) k) (stdout (thing_item k0 v i w)).
Proof.
  induction v as [ | b | m | f | s | l _ | d IH] using json_nested_ind;
    intros n k0 i w k Hk; try contradiction.
  destruct n as [ | n'].
  - destruct Hk as [E | []]. subst k0.
    rewrite stdout_thing_item_dict, Z.add_0_r.
    apply in_or_app. right. apply in_or_app. right. left. reflexivity.
  - simpl in Hk. apply in_flat_map in Hk. destruct Hk as [[k' v'] [Hin Hk]].
    rewrite thing_item_dict.
    apply (in_stdout_thing d (i + 1) _ k' v'); [exact Hin | ].
    intro w'. rewrite Forall_forall in IH.
    replace (i + Z.of_nat (S n')) with ((i + 1) + Z.of_nat n') by lia.
    apply (IH (k', v') Hin). exact Hk.
Qed.

(** X10.  The heading of a mapping met [n] calls below the call
    [thing(x, i)] is printed with [i + n] markers. *)
Theorem nested_heading_depth :
  forall n x i l k,
    In k (sections_at n x) ->
    In (heading (i + Z.of_nat n) k) (emitted x i l).
Proof.
  intros n x i l k Hk. unfold sections_at in Hk.
  apply in_flat_map in Hk. destruct Hk as [[k' v'] [Hin Hk]].
  apply (in_stdout_thing x i _ k' v'); [exact Hin | ].
  intro w'. apply section_heading_printed. exact Hk.
Qed.

Lemma description_printed (v : json) :
  forall k0 i w ks,
    In ks (descriptions_item k0 v) ->
    In (bullet (fst ks) (snd ks)) (stdout (thing_item k0 v i w)).
Proof.
  induction v as [ | b | m | f | s | l _ | d IH] using json_nested_ind;
    intros k0 i w ks Hks; try contradiction.
  - destruct Hks as [E | []]. subst ks.
    rewrite thing_item_str. apply in_or_app. right. left. reflexivity.
  - simpl in Hks. apply in_flat_map in Hks. destruct Hks as [[k' v'] [Hin Hks]].
    rewrite thing_item_dict.
    apply (in_stdout_thing d (i + 1) _ k' v'); [exact Hin | ].
    intro w'. rewrite Forall_forall in IH. apply (IH (k', v') Hin). exact Hks.
Qed.

Lemma verbatim_printed (v : json) :
  forall k0 i w e,
    In e (verbatim_item v) ->
    In (py_str e) (stdout (thing_item k0 v i w)).
Proof.
  induction v as [ | b | m | f | s | l _ | d IH] using json_nested_ind;
    intros k0 i w e He; try contradiction.
  - rewrite thing_item_list. apply in_or_app. right. apply in_map. exact He.
  - simpl in He. apply in_flat_map in He. destruct He as [[k' v'] [Hin He]].
    rewrite thing_item_dict.
    apply (in_stdout_thing d (i + 1) _ k' v'); [exact Hin | ].
    intro w'. rewrite Forall_forall in IH. apply (IH (k', v') Hin). exact He.
Qed.

(** X11.  Nothing of the tree is dropped: every string-valued entry, at
    any depth, has its bullet line in the output, and every element of
    every list has its text in the output, whatever [last] is at the
    start. *)
Theorem every_leaf_is_printed :
  forall x i l,
    incl (map (fun ks => bullet (fst ks) (snd ks)) (descriptions x)) (emitted x i l)
    /\ incl (map py_str (verbatim_elements x)) (emitted x i l).
Proof.
  intros x i l. split; intros line Hline; apply in_map_iff in Hline.
  - destruct Hline as [ks [E Hks]]. subst line.
    unfold descriptions in Hks. apply in_flat_map in Hks.
    destruct Hks as [[k' v'] [Hin Hks]].
    apply (in_stdout_thing x i _ k' v'); [exact Hin | ].
    intro w'. apply description_printed. exact Hks.
  - destruct Hline as [e [E He]]. subst line.
    unfold verbatim_elements in He. apply in_flat_map in He.
    destruct He as [[k' v'] [Hin He]].
    apply (in_stdout_thing x i _ k' v'); [exact Hin | ].
    intro w'. apply verbatim_printed. exact He.
Qed.

(** X7.  A call prints no line at all exactly when every value of the
    mapping is one the loop body prints nothing for: null, a boolean, a
    number or an empty list. *)
Theorem empty_output :
  forall x i l,
    match emitted x i l with [] => true | _ :: _ => false end =
    forallb (fun kv => prints_nothing (snd kv)) x.
Proof.
  intros x i. induction x as [ | [k v] x IH]; intro l; [reflexivity | ].
  rewrite emitted_cons. simpl forallb.
  destruct v as [ | b | n | f | s | ls | d]; simpl prints_nothing;
    try (simpl; apply IH).
  - reflexivity.
  - rewrite thing_item_list. destruct ls as [ | a ls]; simpl; [apply IH | reflexivity].
  - rewrite stdout_thing_item_dict. simpl.
    destruct (not_none_not_dict l); reflexivity.
Qed.

End Further.

(** *** Headings of ASCII keys *)

Lemma ascii_upper_lowered (c : codepoint) :
  is_ascii_upper c = true -> (c + 32)%N <> 95%N.
Proof.
  unfold is_ascii_upper. rewrite andb_true_iff, !N.leb_le. lia.
Qed.

Lemma ascii_lower_titled (c : codepoint) :
  is_ascii_lower c = true -> (c - 32)%N <> 95%N.
Proof.
  unfold is_ascii_lower. rewrite andb_true_iff, !N.leb_le. lia.
Qed.

Lemma do_title_ascii (B1 B2 : Builtins) (rest : pystr) :
  is_ascii rest = true ->
  forall s1 s2 idx p,
    @do_title B1 s1 rest idx p = @do_title B2 s2 rest idx p
    /\ List.length (@do_title B1 s1 rest idx p) = List.length rest
    /\ (~ In 95%N rest -> ~ In 95%N (@do_title B1 s1 rest idx p)).
Proof.
  induction rest as [ | c rest IH]; intros H s1 s2 idx p.
  - repeat split. intros _ [].
  - simpl in H. apply andb_true_iff in H. destruct H as [Hc H].
    assert (Ec : forall B', @is_cased B' c = is_ascii_upper c || is_ascii_lower c)
      by (intro B'; unfold is_cased; rewrite Hc; reflexivity).
    destruct (IH H s1 s2 (S idx) (is_ascii_upper c || is_ascii_lower c))
      as [IH1 [IH2 IH3]].
    simpl. unfold to_lower, to_title. rewrite !Ec, Hc.
    repeat split.
    + destruct p; simpl; rewrite IH1; reflexivity.
    + destruct p; simpl; rewrite IH2; reflexivity.
    + intros Hno Hin.
      assert (Hc95 : c <> 95%N) by (intro E; apply Hno; left; exact E).
      assert (Hrest : ~ In 95%N rest) by (intro E; apply Hno; right; exact E).
      destruct p; simpl in Hin; destruct Hin as [E | Hin];
        try (apply (IH3 Hrest); exact Hin).
      * destruct (is_ascii_upper c) eqn:Eu;
          [apply (ascii_upper_lowered c Eu); exact E | apply Hc95; exact E].
      * destruct (is_ascii_lower c) eqn:El;
          [apply (ascii_lower_titled c El); exact E | apply Hc95; exact E].
Qed.

Lemma replace_underscores_ascii (k : pystr) :
  is_ascii k = true -> is_ascii (replace_underscores k) = true.
Proof.
  induction k as [ | c k IH]; intro H; [reflexivity | ].
  simpl in H. apply andb_true_iff in H. destruct H as [Hc H].
  simpl. rewrite (IH H), andb_true_r.
  destruct (c =? 95)%N; [reflexivity | exact Hc].
Qed.

Lemma replace_underscores_none (k : pystr) : ~ In 95%N (replace_underscores k).
Proof.
  induction k as [ | c k IH]; [intros [] | ].
  simpl. intros [E | Hin]; [ | exact (IH Hin)].
  destruct (c =? 95)%N eqn:Ec; [discriminate E | ].
  apply N.eqb_neq in Ec. apply Ec. exact E.
Qed.

(** X8.  For a key of ASCII characters the heading line is the same
    under any Unicode tables, has one character for each marker, one
    for the space and one for each character of the key, and its text
    holds no underscore. *)
Theorem ascii_heading :
  forall (B1 B2 : Builtins) k i,
    is_ascii k = true ->
    0 <= i ->
    @heading B1 i k = @heading B2 i k
    /\ Z.of_nat (List.length (@heading B1 i k)) = i + 1 + Z.of_nat (List.length k)
    /\ ~ In 95%N (@title B1 (replace_underscores k)).
Proof.
  intros B1 B2 k i Hk Hi.
  pose proof (replace_underscores_ascii k Hk) as Hr.
  destruct (do_title_ascii B1 B2 (replace_underscores k) Hr
              (replace_underscores k) (replace_underscores k) 0%nat false)
    as [E1 [E2 E3]].
  repeat split.
  - unfold heading, title. rewrite E1. reflexivity.
  - unfold heading, title, hashes.
    rewrite !length_app, repeat_length. unfold codepoint in *. rewrite E2.
    unfold replace_underscores.
    rewrite length_map. simpl. lia.
  - apply E3. apply replace_underscores_none.
Qed.

(** * The claims on the sample documents *)

Section Samples.

#[local] Existing Instance ascii_builtins.

(** C1 as stated fails.  After a Description the heading of the next
    Section is preceded by a blank line, where the rule of the
    specification has none; after an empty Section the next heading
    follows the blank line of the first heading at once, where the rule
    of the specification adds one more. *)
Lemma blank_rule_counterexample :
  (spec_blank_before a_description = false
   /\ stdout (thing (a_description ++ b_section) 4 fresh) =
      [u "- `a`: x"; []; u "#### B"; []])
  /\ (spec_blank_before a_empty_section = true
      /\ stdout (thing (a_empty_section ++ b_section) 4 fresh) =
         [u "#### A"; []; u "#### B"; []]).
Proof. repeat split. Qed.

(** C2 as stated fails: the heading of [Settings], a child of the root,
    has 4 markers. *)
Lemma depth_counterexample :
  stdout (fst (main settings_doc)) =
  [u "#### Settings"; []; u "- `timeout`: 30s"]
  /\ stdout (fst (main settings_doc)) <>
     [u "##### Settings"; []; u "- `timeout`: 30s"].
Proof. split; [reflexivity | intro H; vm_compute in H; discriminate H]. Qed.

(** C3 as stated fails: with the number 5 under [retries] the run ends
    without an exception, and prints nothing. *)
Lemma unsupported_value_counterexample :
  snd (main number_doc) = None /\ stdout (fst (main number_doc)) = [].
Proof. split; reflexivity. Qed.

(** C4 as stated fails: the second call on [{"a": {"k": "v"}}] starts
    with [last = str] and prints a blank line first. *)
Lemma second_run_counterexample :
  stdout (thing a_section_with_leaf 4 fresh) =
  [u "#### A"; []; u "- `k`: v"]
  /\ stdout (thing a_section_with_leaf 4 (thing a_section_with_leaf 4 fresh)) =
     [u "#### A"; []; u "- `k`: v"]
       ++ [[]; u "#### A"; []; u "- `k`: v"]
  /\ emitted a_section_with_leaf 4 (last (thing a_section_with_leaf 4 fresh)) <>
     emitted a_section_with_leaf 4 (last fresh).
Proof.
  split; [reflexivity | split; [reflexivity | ]].
  intro H. vm_compute in H. discriminate H.
Qed.

(** C5 as stated fails: [{"a": {}, "b": {}}] and
    [{"a": {"k": "v"}, "b": {}}] have the same variants at the top
    level and differ inside [a] only, and the heading of [b] is
    preceded by a blank line of its own in the second alone. *)
Lemma tracker_leak_counterexample :
  map (fun kv => variant_of (snd kv)) (a_empty_section ++ b_section) =
  map (fun kv => variant_of (snd kv)) (a_section_with_leaf ++ b_section)
  /\ not_none_not_dict (last (thing a_empty_section 4 fresh)) = false
  /\ not_none_not_dict (last (thing a_section_with_leaf 4 fresh)) = true
  /\ stdout (thing (a_empty_section ++ b_section) 4 fresh) =
     [u "#### A"; []; u "#### B"; []]
  /\ stdout (thing (a_section_with_leaf ++ b_section) 4 fresh) =
     [u "#### A"; []; u "- `k`: v"; []; u "#### B"; []].
Proof. repeat split. Qed.


(** C9 on a document whose [description] is a list in second place. *)
Lemma description_key_is_stripped_witness :
  dict_get (u "docs") [(u "docs", JDict described_docs)] =
  Some (JDict ([(u "intro", JStr (u "i"))]
                 ++ (u "description", JList [JStr (u "d")])
                 :: [(u "settings", JDict [(u "timeout", JStr (u "30s"))])]))
  /\ main described_doc =
     (mkWorld (Some TStr)
        [u "- `intro`: i"; []; u "#### Settings"; []; u "- `timeout`: 30s"],
      None).
Proof.
  split; [reflexivity | ].
  refine (proj1 (description_key_is_stripped
                   [(u "docs", JDict described_docs)]
                   [(u "intro", JStr (u "i"))]
                   (JList [JStr (u "d")])
                   [(u "settings", JDict [(u "timeout", JStr (u "30s"))])]
                   eq_refl _ _));
    cbv; intuition discriminate.
Defined.

(** C10 on a document whose [docs] object has the key [settings] only. *)
Lemma missing_description_is_key_error_witness :
  dict_get (u "docs") [(u "docs", JDict [(u "settings", JDict [(u "timeout", JStr (u "30s"))])])] =
  Some (JDict [(u "settings", JDict [(u "timeout", JStr (u "30s"))])])
  /\ main no_description_doc = (fresh, Some (KeyError (u "description"))).
Proof.
  split; [reflexivity | ].
  refine (proj1 (missing_description_is_key_error
                   [(u "docs", JDict [(u "settings", JDict [(u "timeout", JStr (u "30s"))])])]
                   [(u "settings", JDict [(u "timeout", JStr (u "30s"))])]
                   eq_refl _)).
  cbv; intuition discriminate.
Defined.

End Samples.

(** * The further properties on sample documents *)

Section FurtherSamples.

#[local] Existing Instance ascii_builtins.

(** X2 on [{"settings": {}}]. *)
Lemma main_without_docs_witness :
  ~ In (u "docs") (keys [(u "settings", JDict [])])
  /\ main no_docs_doc = (fresh, Some (KeyError (u "docs"))).
Proof.
  assert (H : ~ In (u "docs") (keys [(u "settings", JDict [])]))
    by (cbv; intuition discriminate).
  split; [exact H | ].
  exact (main_without_docs [(u "settings", JDict [])] H).
Defined.

(** X3 on [["text"]] and on [{"docs": "text"}]. *)
Lemma non_object_is_type_error_witness :
  is_dict list_doc = false
  /\ main list_doc = (fresh, Some TypeError)
  /\ dict_get (u "docs") [(u "docs", JStr (u "text"))] = Some (JStr (u "text"))
  /\ main text_docs_doc = (fresh, Some TypeError).
Proof.
  split; [reflexivity | split; [ | split; [reflexivity | ]]].
  - exact (proj1 non_object_is_type_error list_doc eq_refl).
  - exact (proj2 non_object_is_type_error
             [(u "docs", JStr (u "text"))] (JStr (u "text")) eq_refl eq_refl).
Defined.

(** X6 on [{"a": "x", "b": {}}] in a fresh process. *)
Lemma heading_follows_blank_line_witness :
  blank_tracked fresh = true
  /\ stdout (thing (a_description ++ (u "b", JDict []) :: []) 4 fresh) =
     [u "- `a`: x"; []] ++ [u "#### B"; []]
  /\ ends_with_blank [u "- `a`: x"; []] = true.
Proof.
  split; [reflexivity | ].
  destruct (heading_follows_blank_line a_description (u "b") [] [] 4 fresh eq_refl)
    as [H [_ _]].
  split; [exact H | reflexivity].
Defined.

(** X8 on the key [api_docs] at depth 4. *)
Lemma ascii_heading_witness :
  is_ascii (u "api_docs") = true
  /\ 0 <= 4
  /\ Z.of_nat (List.length (heading 4 (u "api_docs"))) = 4 + 1 + 8
  /\ ~ In 95%N (title (replace_underscores (u "api_docs"))).
Proof.
  split; [reflexivity | split; [lia | ]].
  exact (proj2 (ascii_heading ascii_builtins ascii_builtins (u "api_docs") 4
                  eq_refl ltac:(lia))).
Defined.

(** X10 on [{"a": {"b": {"c": {}}, ...}}]: [c] is two calls below. *)
Lemma nested_heading_depth_witness :
  In (u "c") (sections_at 2 three_levels)
  /\ In (u "###### C") (emitted three_levels 4 None).
Proof.
  assert (H : In (u "c") (sections_at 2 three_levels)) by (left; reflexivity).
  split; [exact H | ].
  exact (nested_heading_depth 2 three_levels 4 None (u "c") H).
Defined.

End FurtherSamples.
